(** * Verification of the portfolio site's components

    A shallow embedding of the components and data tables of the site:
    the [Tag] label renderer, the [CustomLink] anchor classifier, the
    [CopyToClipboard] control of the [Hero] banner, the [Skills] grid and
    the static tables ([Tools], [projectsData], [skills]).

    JavaScript objects are finite maps from property names to values,
    React elements are trees of such objects, and the one stateful
    component is a transition system over its hook state and the pending
    timers. *)

From Stdlib Require Import ZArith NArith Ascii String List Bool Lia.
From stdpp Require Import gmap strings list fin_maps sorting.

Set Warnings "-register-all".

Local Open Scope string_scope.
Local Open Scope list_scope.

(** ** JavaScript values and React nodes *)

Module JS.

(** The values a property of the tables or a JSX attribute can hold.
    [VRef] names an imported component or a function. *)
Inductive value :=
| VUndefined
| VNull
| VBool (b : bool)
| VNum (n : Z)
| VStr (s : string)
| VRef (id : string)
| VArr (items : list value)
| VObj (fields : gmap string value).

(** ToBoolean: [undefined], [null], [false], [0] and the empty string are
    falsy, every other value is truthy. *)
Definition truthy (v : value) : bool :=
  match v with
  | VUndefined | VNull => false
  | VBool b => b
  | VNum n => negb (n =? 0)%Z
  | VStr s => negb (String.eqb s "")
  | VRef _ | VArr _ | VObj _ => true
  end.

(** What JSX produces: a plain value (text, [null], ...) or an element with
    its props and children. *)
Inductive node :=
| NVal (v : value)
| NElem (tag : string) (props : gmap string value) (kids : list node).

Definition node_truthy (n : node) : bool :=
  match n with
  | NVal v => truthy v
  | NElem _ _ _ => true
  end.

(** Reading a property: an absent key reads as [undefined]. *)
Definition get (o : gmap string value) (k : string) : value :=
  default VUndefined (o !! k).

(** Props of a JSX element: attributes written before a spread are
    overridden by the spread's own keys. [m1 ∪ m2] keeps [m1] on a clash. *)
Definition spread_last (written spreaded : gmap string value) : gmap string value :=
  spreaded ∪ written.

(** An object literal, from its fields in source order. *)
Definition obj (fields : list (string * value)) : gmap string value :=
  list_to_map fields.

(** The name under which an element type is rendered. *)
Definition component_name (v : value) : string :=
  match v with
  | VRef id => id
  | VStr s => s
  | _ => "undefined"
  end.

(** [String.prototype.startsWith]. *)
Definition startsWith (s p : string) : bool := String.prefix p s.

(** [String.prototype.split] with a one-character separator: always at
    least one piece, an empty piece between adjacent separators. *)
Fixpoint split (sep : ascii) (s : string) : list string :=
  match s with
  | EmptyString => [""]
  | String c s' =>
      if Ascii.eqb c sep then "" :: split sep s'
      else match split sep s' with
           | piece :: rest => String c piece :: rest
           | [] => [String c ""]
           end
  end.

(** [Array.prototype.join]. *)
Fixpoint join (sep : string) (l : list string) : string :=
  match l with
  | [] => ""
  | [x] => x
  | x :: l' => x +:+ sep +:+ join sep l'
  end.

(** Character-wise rewriting of a string. *)
Fixpoint map_chars (f : ascii -> ascii) (s : string) : string :=
  match s with
  | EmptyString => EmptyString
  | String c s' => String (f c) (map_chars f s')
  end.

(** [String.prototype.toLowerCase] on the ASCII letters; other code units
    are left as they are. *)
Definition lower_char (c : ascii) : ascii :=
  let n := N_of_ascii c in
  if ((65 <=? n) && (n <=? 90))%N then ascii_of_N (n + 32) else c.

Definition toLowerCase (s : string) : string := map_chars lower_char s.

Definition is_upper (c : ascii) : bool :=
  let n := N_of_ascii c in ((65 <=? n) && (n <=? 90))%N.

(** Whether every character of a string passes a test. *)
Fixpoint all_chars (f : ascii -> bool) (s : string) : bool :=
  match s with
  | EmptyString => true
  | String c s' => f c && all_chars f s'
  end.

End JS.

Import JS.

(** ** The tag label renderer *)

Module TagLabel.

Definition hyphenate (c : ascii) : ascii :=
  if Ascii.eqb c " " then "-"%char else c.

(** Modelled from the spec: [kebabCase] of [@/lib/utils/kebabCase], which
    [Tag] imports and whose file is not part of the sources at hand. The
    specification describes it as producing a URL-safe slug, "lowercase,
    spaces to hyphens". *)
Definition kebabCase (str : string) : string :=
  map_chars hyphenate (toLowerCase str).

Definition tagClass : string :=
  "mx-1 text-sm font-medium uppercase hover:text-primary-600".

(** The visible label, [text.split(' ').join('-')]. *)
Definition label (text : string) : string := join "-" (split " " text).

(** [Tag] as of the current revision: the class sits on the [Link]. *)
Definition Tag (text : string) : node :=
  NElem "Link"
    (<["href" := VStr ("/tags/" +:+ kebabCase text)]>
       (<["className" := VStr tagClass]> ∅))
    [NVal (VStr (label text))].

(** The earlier revision wraps an anchor that carries the class. *)
Definition Tag_anchor (text : string) : node :=
  NElem "Link"
    (<["href" := VStr ("/tags/" +:+ kebabCase text)]> ∅)
    [NElem "a" (<["className" := VStr tagClass]> ∅)
       [NVal (VStr (label text))]].

(** The revision with [legacyBehavior]. *)
Definition Tag_legacy (text : string) : node :=
  NElem "Link"
    (<["href" := VStr ("/tags/" +:+ kebabCase text)]>
       (<["className" := VStr tagClass]>
          (<["legacyBehavior" := VBool true]> ∅)))
    [NVal (VStr (label text))].

(** The [href] prop of a rendered element. *)
Definition href_of (n : node) : value :=
  match n with
  | NElem _ props _ => get props "href"
  | NVal _ => VUndefined
  end.

End TagLabel.

(** ** The link component *)

Module Links.

(** The destructured argument of [CustomLink] for a call whose address is
    a string or is not passed: [href] is [None] when the caller passes
    none, and the string otherwise; [onClick] is [VUndefined] when absent;
    [rest] holds the props other than [href], [onClick] and [children].
    Calls with any other value as [href] are the subject of [LinkCall]
    below, which agrees with this module on the calls described here. *)
Record Props := {
  href : option string;
  onClick : value;
  children : node;
  rest : gmap string value;
}.

Definition href_value (h : option string) : value :=
  from_option VStr VUndefined h.

(** [href && href.startsWith(c)]: falsy for a missing or empty [href],
    otherwise the outcome of the prefix test. *)
Definition href_and_startsWith (h : option string) (c : string) : bool :=
  match h with
  | None => false
  | Some s => if String.eqb s "" then false else startsWith s c
  end.

Definition isInternalLink (p : Props) : bool := href_and_startsWith (href p) "/".
Definition isAnchorLink (p : Props) : bool := href_and_startsWith (href p) "#".

Definition CustomLink (p : Props) : node :=
  if negb (node_truthy (children p)) then NVal VNull
  else if isInternalLink p then
    NElem "Link"
      (<["href" := href_value (href p)]>
         (<["passHref" := VBool true]> (<["legacyBehavior" := VBool true]> ∅)))
      [NElem "a"
         (spread_last (<["onClick" := onClick p]> ∅) (rest p))
         [children p]]
  else if isAnchorLink p then
    NElem "a"
      (spread_last
         (<["href" := href_value (href p)]> (<["onClick" := onClick p]> ∅))
         (rest p))
      [children p]
  else
    NElem "a"
      (spread_last
         (<["target" := VStr "_blank"]>
            (<["rel" := VStr "noopener noreferrer"]>
               (<["href" := href_value (href p)]>
                  (<["onClick" := onClick p]> ∅))))
         (rest p))
      [children p].

(** The three ways a link is rendered. *)
Inductive kind := Internal | InPage | External.

Definition classify (h : option string) : kind :=
  if href_and_startsWith h "/" then Internal
  else if href_and_startsWith h "#" then InPage
  else External.

Definition tag_of (n : node) : option string :=
  match n with
  | NElem t _ _ => Some t
  | NVal _ => None
  end.

Definition props_of (n : node) : gmap string value :=
  match n with
  | NElem _ props _ => props
  | NVal _ => ∅
  end.

Definition kids_of (n : node) : list node :=
  match n with
  | NElem _ _ kids => kids
  | NVal _ => []
  end.

(** The anchor element of a rendered link: the element itself, or the
    child of the [Link] wrapper. *)
Definition anchor_of (n : node) : option node :=
  match n with
  | NElem "a" _ _ => Some n
  | NElem "Link" _ [NElem "a" props kids] => Some (NElem "a" props kids)
  | _ => None
  end.



(** An internal link with content and a handler. *)
Definition internal_with_children : Props :=
  {| href := Some "/about";
     onClick := VRef "track";
     children := NVal (VStr "About");
     rest := obj [("className", VStr "underline")] |}.


End Links.

(** ** The link component on props of any value *)

Module LinkCall.

(** What evaluating an expression comes to: a value, a [TypeError], or a
    call into a function that lies outside these sources. *)
Inductive result (A : Type) :=
| Ok (a : A)
| TypeError
| Outside.

Arguments Ok {A} a.
Arguments TypeError {A}.
Arguments Outside {A}.

Definition bind {A B : Type} (r : result A) (k : A -> result B) : result B :=
  match r with
  | Ok a => k a
  | TypeError => TypeError
  | Outside => Outside
  end.

(** The props as the caller passes them: [href] is whatever value was
    given, [VUndefined] when none was. *)
Record Props := {
  href : value;
  onClick : value;
  children : node;
  rest : gmap string value;
}.

(** [v.startsWith(c)]. A string has the method. An object has it only as a
    field of its own, and calling such a field, when it is a function,
    leaves these sources. Numbers, booleans, arrays and functions have no
    such property, and calling what is not a function is a [TypeError]. *)
Definition call_startsWith (v : value) (c : string) : result value :=
  match v with
  | VStr s => Ok (VBool (startsWith s c))
  | VObj fields =>
      match fields !! "startsWith" with
      | Some (VRef _) => Outside
      | _ => TypeError
      end
  | _ => TypeError
  end.

(** [href && href.startsWith(c)]: a falsy [href] is the value of the
    conjunction, and the method is not called. *)
Definition and_startsWith (h : value) (c : string) : result value :=
  if truthy h then call_startsWith h c else Ok h.

(** [CustomLink]: both prefix tests are evaluated first, then [children]
    is looked at. *)
Definition CustomLink (p : Props) : result node :=
  bind (and_startsWith (href p) "/") (fun isInternalLink =>
  bind (and_startsWith (href p) "#") (fun isAnchorLink =>
  Ok (if negb (node_truthy (children p)) then NVal VNull
      else if truthy isInternalLink then
        NElem "Link"
          (<["href" := href p]>
             (<["passHref" := VBool true]>
                (<["legacyBehavior" := VBool true]> ∅)))
          [NElem "a"
             (spread_last (<["onClick" := onClick p]> ∅) (rest p))
             [children p]]
      else if truthy isAnchorLink then
        NElem "a"
          (spread_last
             (<["href" := href p]> (<["onClick" := onClick p]> ∅))
             (rest p))
          [children p]
      else
        NElem "a"
          (spread_last
             (<["target" := VStr "_blank"]>
                (<["rel" := VStr "noopener noreferrer"]>
                   (<["href" := href p]>
                      (<["onClick" := onClick p]> ∅))))
             (rest p))
          [children p]))).

(** The call that [Links.Props] describes. *)
Definition of_string_call (p : Links.Props) : Props :=
  {| href := Links.href_value (Links.href p);
     onClick := Links.onClick p;
     children := Links.children p;
     rest := Links.rest p |}.

(** An address that is a string, or a falsy value of any kind. *)
Definition string_or_falsy (v : value) : bool :=
  match v with
  | VStr _ => true
  | _ => negb (truthy v)
  end.

(** A truthy value on which [startsWith] is not a function. *)
Definition lacks_startsWith (v : value) : bool :=
  match v with
  | VUndefined | VNull | VStr _ => false
  | VBool b => b
  | VNum n => negb (n =? 0)%Z
  | VRef _ | VArr _ => true
  | VObj fields =>
      match fields !! "startsWith" with
      | Some (VRef _) => false
      | _ => true
      end
  end.

(** A link without content whose address is a number. *)
Definition number_href_without_children : Props :=
  {| href := VNum 42;
     onClick := VUndefined;
     children := NVal VUndefined;
     rest := ∅ |}.

(** A link without content whose address is a string. *)
Definition string_href_without_children : Props :=
  {| href := VStr "/blog";
     onClick := VRef "track";
     children := NVal (VStr "");
     rest := obj [("className", VStr "underline")] |}.

(** A link with content whose address is [null]. *)
Definition null_href_with_children : Props :=
  {| href := VNull;
     onClick := VUndefined;
     children := NVal (VStr "Home");
     rest := ∅ |}.

End LinkCall.

(** ** The banner and its clipboard control *)

Module Copy.

(** The [text] prop of [CopyToClipboard]. *)
Record Text := { contact : string; type : string }.

(** What [Hero] passes. *)
Definition Hero_text : Text :=
  {| contact := "ananthanandanan@gmail.com"; type := "Email" |}.

(** The delay given to [setTimeout], in milliseconds. *)
Definition delay : N := 3000.

(** The component together with the part of the platform it acts on:
    - [show]: the hook state, [useState(false)];
    - [now]: the clock, in milliseconds;
    - [timers]: the deadlines of the pending [setTimeout] callbacks, in
      the order they were scheduled;
    - [clipboard]: the content of the system clipboard;
    - [writes]: the arguments of the [writeText] calls so far.
    The component has re-rendered between two events, so the handler reads
    the current flag, and a callback runs when its delay has elapsed. *)
Record State := {
  show : bool;
  now : N;
  timers : list N;
  clipboard : option string;
  writes : list string;
}.

Definition init : State :=
  {| show := false; now := 0; timers := []; clipboard := None; writes := [] |}.

(** [handleClick]. [fulfilled] tells whether the platform carries out the
    write or rejects it; the handler does not look at the promise. *)
Definition handleClick (text : Text) (fulfilled : bool) (st : State) : State :=
  {| show := negb (show st);
     now := now st;
     timers := timers st ++ [(now st + delay)%N];
     clipboard := if fulfilled then Some (contact text) else clipboard st;
     writes := writes st ++ [contact text] |}.

(** Time passes: the clock advances by [d] and every callback that is due
    by then runs; each one is [setShow(false)]. *)
Definition elapse (d : N) (st : State) : State :=
  let t := (now st + d)%N in
  let due := filter (fun deadline => (deadline <= t)%N) (timers st) in
  {| show := match due with [] => show st | _ :: _ => false end;
     now := t;
     timers := filter (fun deadline => (t < deadline)%N) (timers st);
     clipboard := clipboard st;
     writes := writes st |}.

Inductive event :=
| Click (fulfilled : bool)
| Elapse (d : N).

Definition step (text : Text) (e : event) (st : State) : State :=
  match e with
  | Click fulfilled => handleClick text fulfilled st
  | Elapse d => elapse d st
  end.

(** The events of a session, oldest first. *)
Definition run (text : Text) (evs : list event) (st : State) : State :=
  fold_left (fun s e => step text e s) evs st.

Definition is_click (e : event) : bool :=
  match e with Click _ => true | Elapse _ => false end.

(** What the component itself holds and renders from: the flag and the
    callbacks it has scheduled. *)
Definition component_state (st : State) : bool * list N := (show st, timers st).

(** The rendered control: the icon with its handler and the notification
    that receives the flag. *)
Definition CopyToClipboard (icon : string) (text : Text)
    (props : gmap string value) (st : State) : node :=
  NElem "div" (spread_last (<["className" := VStr "-m-1 p-1 "]> ∅) props)
    [NElem icon
       (<["className" := VStr "h-6 w-6 cursor-pointer fill-gray-500 transition hover:fill-gray-200"]>
          (<["onClick" := VRef "handleClick"]> ∅)) [];
     NElem "Notification"
       (<["show" := VBool (show st)]>
          (<["setShow" := VRef "setShow"]>
             (<["text" := VObj (obj [("contact", VStr (contact text));
                                     ("type", VStr (type text))])]> ∅))) []].

End Copy.

(** ** The static tables *)

Module Tables.

Definition Tools : list (gmap string value) :=
  [obj [("id", VStr "vscode");
        ("category", VArr [VStr "mac"]);
        ("link", VStr "https://code.visualstudio.com/");
        ("labels", VArr [VStr "Editor"]);
        ("name", VStr "Visual Studio Code");
        ("description", VStr "A lightweight code editor with plenty of plugins.")];
   obj [("id", VStr "discord");
        ("category", VArr [VStr "mac"; VStr "ios"; VStr "web"]);
        ("link", VStr "https://discord.com");
        ("labels", VArr [VStr "Voice Chat"]);
        ("name", VStr "Discord");
        ("description", VStr "A voice chat app.")];
   obj [("id", VStr "appcleaner");
        ("category", VArr [VStr "mac"]);
        ("link", VStr "https://freemacsoft.net/appcleaner/");
        ("labels", VArr [VStr "Utility"]);
        ("name", VStr "AppCleaner");
        ("description", VStr "Uninstalls all the files associated with an app.")];
   obj [("id", VStr "postman");
        ("category", VArr [VStr "mac"]);
        ("link", VStr "https://www.getpostman.com/");
        ("labels", VArr [VStr "API Testing"]);
        ("name", VStr "Postman");
        ("description", VStr "A tool for testing APIs.")];
   obj [("id", VStr "stackoverflow");
        ("category", VArr [VStr "web"]);
        ("link", VStr "https://stackoverflow.com/");
        ("labels", VArr [VStr "Questions"]);
        ("name", VStr "Stack Overflow");
        ("description", VStr "C'mon, we all have questions.")];
   obj [("id", VStr "notion");
        ("category", VArr [VStr "web"; VStr "linux"; VStr "mac"]);
        ("link", VStr "https://www.notion.so");
        ("labels", VArr [VStr "Organiser"]);
        ("name", VStr "Notion");
        ("description", VStr "workspace for everything")];
   obj [("id", VStr "trello");
        ("category", VArr [VStr "web"]);
        ("link", VStr "https://www.trello.com");
        ("labels", VArr [VStr "Project Board"]);
        ("name", VStr "Trello");
        ("description", VStr "Manage projects with team")]].

Definition projectsData : list (gmap string value) :=
  [obj [("title", VStr "lazzzy-space");
        ("description", VStr "A web app that provides teams to collaborate academically. It is a platform for students to share their ideas and projects with each other.");
        ("imgSrc", VStr "/static/images/projectCards/wavy-website.png");
        ("href", VStr "https://github.com/Akshay3960/lazzzy-space");
        ("tools", VArr [VStr "React"; VStr "Node"; VStr "MongoDB"; VStr "Express"; VStr "Redux"; VStr "JWT"])];
   obj [("title", VStr "NaWaB bot");
        ("description", VStr "This bot is a content curator for the topics related to the networks. Made with python and twitter API, it is the best solution to be updated in the latest technologies, 
    developements and discussion of networks on twitter.");
        ("imgSrc", VStr "/static/images/projectCards/twitter-network.png");
        ("href", VStr "https://github.com/Team-SYNACKd/NaWaB");
        ("tools", VArr [VStr "Python"; VStr "Twitter API"; VStr "Telegram API"])];
   obj [("title", VStr "CMS");
        ("description", VStr "Club Management System (CMS) is django-based web-app which lays framework for the amfoss website, the amfoss webapp, and the amfoss app.");
        ("imgSrc", VStr "/static/images/projectCards/cms.png");
        ("href", VStr "https://gitlab.com/amfoss/amfoss/cms");
        ("tools", VArr [VStr "Django"; VStr "Python"; VStr "GraphQL+JWT"; VStr "SQLite3"])];
   obj [("title", VStr "passman");
        ("description", VStr "passman is a password manager for commandline written in Javascript");
        ("imgSrc", VStr "/static/images/projectCards/passman.png");
        ("href", VStr "https://github.com/ananthanandanan/passman");
        ("tools", VArr [VStr "javascript"])];
   obj [("title", VStr "Umai");
        ("description", VStr "Umai is a hotel management system build using java with postgresql as the database system.");
        ("imgSrc", VStr "/static/images/projectCards/hotel-db.png");
        ("href", VStr "https://github.com/ananthanandanan/Hotel-DB");
        ("tools", VArr [VStr "Java"; VStr "JavaFX"; VStr "Postgres"])];
   obj [("title", VStr "Nav-FT");
        ("description", VStr "NAV-FT contains some of the features that we can use to speed up the process of vehicle fitness testing.");
        ("imgSrc", VStr "/static/images/projectCards/nav-ft.png");
        ("href", VStr "https://github.com/Fireboltz/NAV-FT");
        ("tools", VArr [VStr "Flutter"; VStr "Firebase"; VStr "Python"])]].

Definition skills : list (gmap string value) :=
  [obj [("name", VStr "Python"); ("logo", VRef "SiPython")];
   obj [("name", VStr "Django"); ("logo", VRef "SiDjango")];
   obj [("name", VStr "TypeScript"); ("logo", VRef "SiTypescript")];
   obj [("name", VStr "Node.js"); ("logo", VRef "SiNodedotjs")];
   obj [("name", VStr "Git"); ("logo", VRef "SiGit")];
   obj [("name", VStr "Docker"); ("logo", VRef "SiDocker")];
   obj [("name", VStr "Linux"); ("logo", VRef "SiLinux")];
   obj [("name", VStr "Nextjs"); ("logo", VRef "SiNextdotjs")];
   obj [("name", VStr "PostgreSQL"); ("logo", VRef "SiPostgresql")];
   obj [("name", VStr "MongoDB"); ("logo", VRef "SiMongodb")];
   obj [("name", VStr "FastAPI"); ("logo", VRef "SiFastapi")];
   obj [("name", VStr "Celery"); ("logo", VRef "SiCelery")];
   obj [("name", VStr "RabbitMQ"); ("logo", VRef "SiRabbitmq")];
   obj [("name", VStr "MinIO"); ("logo", VRef "SiMinio")];
   obj [("name", VStr "LangChain"); ("logo", VRef "SiLangchain")];
   obj [("name", VStr "Tortoise ORM"); ("logo", VRef "GiTortoise")]].

(** The table of the earlier revision of the grid. *)
Definition skills_earlier : list (gmap string value) :=
  [obj [("name", VStr "Python"); ("logo", VRef "SiPython")];
   obj [("name", VStr "Django"); ("logo", VRef "SiDjango")];
   obj [("name", VStr "TypeScript"); ("logo", VRef "SiTypescript")];
   obj [("name", VStr "Node.js"); ("logo", VRef "SiNodedotjs")];
   obj [("name", VStr "GraphQL"); ("logo", VRef "SiGraphql")];
   obj [("name", VStr "Git"); ("logo", VRef "SiGit")];
   obj [("name", VStr "Docker"); ("logo", VRef "SiDocker")];
   obj [("name", VStr "Linux"); ("logo", VRef "SiLinux")];
   obj [("name", VStr "React"); ("logo", VRef "SiReact")];
   obj [("name", VStr "Nextjs"); ("logo", VRef "SiNextdotjs")];
   obj [("name", VStr "PostgreSQL"); ("logo", VRef "SiPostgresql")];
   obj [("name", VStr "MongoDB"); ("logo", VRef "SiMongodb")]].

(** A field that is present and holds a non-empty string. *)
Definition has_text (o : gmap string value) (k : string) : Prop :=
  exists s, o !! k = Some (VStr s) /\ s <> "".

(** A field that is present and holds an array. *)
Definition has_list (o : gmap string value) (k : string) : Prop :=
  exists items, o !! k = Some (VArr items).

(** A field that is present and refers to an imported component. *)
Definition has_ref (o : gmap string value) (k : string) : Prop :=
  exists id, o !! k = Some (VRef id) /\ id <> "".

Definition has_textb (o : gmap string value) (k : string) : bool :=
  match o !! k with
  | Some (VStr s) => negb (String.eqb s "")
  | _ => false
  end.

Definition has_listb (o : gmap string value) (k : string) : bool :=
  match o !! k with
  | Some (VArr _) => true
  | _ => false
  end.

Definition has_refb (o : gmap string value) (k : string) : bool :=
  match o !! k with
  | Some (VRef id) => negb (String.eqb id "")
  | _ => false
  end.

Definition tool_ok (o : gmap string value) : bool :=
  has_textb o "id" && has_textb o "link" && has_textb o "name" &&
  has_listb o "category" && has_listb o "labels" && has_textb o "description".

Definition project_ok (o : gmap string value) : bool :=
  has_textb o "title" && has_textb o "href".

Definition skill_ok (o : gmap string value) : bool :=
  has_textb o "name" && has_refb o "logo".

End Tables.

(** ** The skills grid *)

Module SkillsGrid.

(** The callback given to [skills.map]. *)
Definition skill_card (skill : gmap string value) : node :=
  NElem "motion.div"
    (obj [("title", get skill "name");
          ("variants", VRef "popUp");
          ("key", get skill "name");
          ("onMouseMove", VRef "showHoverAnimation");
          ("onMouseLeave", VRef "removeHoverAnimation");
          ("className", VStr "dark:bg-darkPrimary group flex origin-center transform items-center justify-center gap-4 rounded-sm border border-gray-300 p-4 dark:border-neutral-700 hover:dark:bg-darkSecondary sm:justify-start md:origin-top")])
    [NElem "div"
       (obj [("className", VStr "pointer-events-none relative select-none transition group-hover:scale-110 sm:group-hover:scale-100")])
       [NElem (component_name (get skill "logo"))
          (obj [("className", VStr "h-8 w-8")]) []];
     NElem "p"
       (obj [("className", VStr "pointer-events-none hidden select-none text-sm font-semibold sm:inline-flex md:text-base")])
       [NVal (get skill "name")]].

(** [Skills], over the table it closes over. [Array.prototype.map] builds a
    new array and leaves its receiver as it is. *)
Definition Skills (skills : list (gmap string value)) : node :=
  NElem "Fragment" ∅
    [NElem "span"
       (obj [("className", VStr "font-poppins title-font text-3xl font-bold")])
       [NVal (VStr "My Top Skills")];
     NElem "motion.div"
       (obj [("initial", VStr "hidden");
             ("whileInView", VStr "visible");
             ("variants", VRef "FadeContainer");
             ("viewport", VObj (obj [("once", VBool true)]));
             ("className", VStr "my-10 grid grid-cols-3 gap-4")])
       (map skill_card skills)].

(** The cards of a rendered grid. *)
Definition cards (n : node) : list node :=
  match n with
  | NElem _ _ [_; NElem _ _ items] => items
  | _ => []
  end.

Definition title_of (n : node) : value :=
  match n with
  | NElem _ props _ => get props "title"
  | NVal _ => VUndefined
  end.

End SkillsGrid.

(** ** The banner *)

Module Banner.

Definition iconClass : string :=
  "h-6 w-6 cursor-pointer fill-gray-500 transition hover:fill-gray-200".

(** [SocialLink]: [legacyBehavior] is written after the spread. *)
Definition SocialLink (icon : string) (props : gmap string value) : node :=
  NElem "Link"
    (<["legacyBehavior" := VBool true]>
       (spread_last (obj [("className", VStr "-m-1 p-1 ")]) props))
    [NElem icon (obj [("className", VStr iconClass)]) []].

(** [Hero], given the state of the one stateful component inside it. *)
Definition Hero (st : Copy.State) : node :=
  NElem "div" (obj [("className", VStr "mb-5 max-w-2xl")])
    [NElem "h1"
       (obj [("className", VStr "text-4xl font-bold tracking-tight text-gray-800 dark:text-zinc-100 sm:text-5xl")])
       [NVal (VStr "Web developer, techie and, fitness junkie.")];
     NElem "p"
       (obj [("className", VStr "mt-6 text-base text-gray-600 dark:text-gray-400")])
       [NVal (VStr "I'm K N Anantha nandanan based in Kerala, India. I am a web developer and ML Researcher and currently pursuing my B.Tech in Computer Science and Engineering. I enjoy working with a team to solve problems and build solutions. On this website, you will find a collection of my past projects and experiences as well as my thoughts and insights on the tech industry.")];
     NElem "div" (obj [("className", VStr "mt-6 flex gap-6")])
       [SocialLink "IoLogoGithub"
          (obj [("href", VStr "https://github.com/ananthanandanan");
                ("aria-label", VStr "Check out my Github")]);
        SocialLink "IoLogoLinkedin"
          (obj [("href", VStr "https://www.linkedin.com/in/de-blank/");
                ("aria-label", VStr "Connect with me on LinkedIn")]);
        SocialLink "IoLogoTwitter"
          (obj [("href", VStr "https://twitter.com/Ananthan2k");
                ("aria-label", VStr "Connect with me on LinkedIn")]);
        Copy.CopyToClipboard "IoMail" Copy.Hero_text
          (obj [("aria-label", VStr "Send me an email")]) st]].

End Banner.

(** ** The clock and the pending callbacks *)

Module CopyTimers.

Import Copy.

(** Every pending callback is due after the current instant and no later
    than one delay from it. *)
Definition timely (st : State) : Prop :=
  Forall (fun deadline => (now st < deadline <= now st + delay)%N) (timers st).

(** The callbacks are pending in the order in which they will run. *)
Definition in_order (st : State) : Prop :=
  StronglySorted N.le (timers st).

(** A flag that is set has a callback pending that will clear it. *)
Definition reset_pending (st : State) : Prop :=
  timers st = [] -> show st = false.

Definition consistent (st : State) : Prop :=
  timely st /\ in_order st /\ reset_pending st.

Definition is_fulfilled_click (e : event) : bool :=
  match e with Click fulfilled => fulfilled | Elapse _ => false end.


(** Two clicks a second apart and another second gone: the flag is
    cleared again and both callbacks are still pending. *)
Definition two_clicks : list event :=
  [Click true; Elapse 1000; Click true; Elapse 1000].

End CopyTimers.

(** ** The social links of the about page *)

Module AboutPage.

Definition linkClass : string :=
  "group flex text-sm font-medium text-zinc-800 transition hover:text-primary-500 dark:text-zinc-200 dark:hover:text-primary-500".

Definition iconClass : string :=
  "h-6 w-6 flex-none fill-zinc-500 transition group-hover:fill-primary-500".

(** Several JSX children reach a component as one array; it is written
    here as a fragment of the same nodes, which is truthy as an array is. *)
Definition node_array (items : list node) : node := NElem "Fragment" ∅ items.

(** What [SocialLink] puts inside its link. *)
Definition link_content (children : node) (icon : string) : node :=
  node_array
    [NElem icon (obj [("className", VStr iconClass)]) [];
     NElem "span" (obj [("className", VStr "ml-4")]) [children]].

(** The props [SocialLink] gives to its link: the address, the class and
    the two children; no handler. *)
Definition about_link_props (href : option string) (children : node)
    (icon : string) : Links.Props :=
  {| Links.href := href;
     Links.onClick := VUndefined;
     Links.children := link_content children icon;
     Links.rest := obj [("className", VStr linkClass)] |}.

(** [SocialLink] of the about page. Its [Link] is the site's own link
    component, [CustomLink], which is rendered in place; [className] is
    taken from the props and not used. *)
Definition SocialLink (className : value) (href : option string)
    (children : node) (icon : string) : node :=
  NElem "li" (obj [("className", VStr "flex")])
    [Links.CustomLink (about_link_props href children icon)].

(** The list of links of [About]; [github], [linkedin] and [email] come
    from the site's metadata. *)
Definition About_links (github linkedin : option string) (email : string) : node :=
  NElem "ul" (obj [("role", VStr "list")])
    [SocialLink (VStr "mt-4") github
       (NVal (VStr "Follow on GitHub")) "GitHubIcon";
     SocialLink (VStr "mt-4") linkedin
       (NVal (VStr "Follow on LinkedIn")) "LinkedInIcon";
     SocialLink
       (VStr "mt-8 border-t border-zinc-100 pt-8 dark:border-zinc-700/40")
       (Some ("mailto:" +:+ email))
       (NVal (VStr "ananthanandanan@gmail.com")) "MailIcon"].

(** The link element inside a rendered [SocialLink]. *)
Definition link_of (n : node) : option node :=
  match n with
  | NElem _ _ [l] => Some l
  | _ => None
  end.

End AboutPage.

(** ** Reading a rendered skills grid *)

Module SkillsView.

Definition key_of (n : node) : value :=
  match n with
  | NElem _ props _ => get props "key"
  | NVal _ => VUndefined
  end.

(** The text under the icon of a card. *)
Definition caption_of (n : node) : value :=
  match n with
  | NElem _ _ [_; NElem _ _ [NVal v]] => v
  | _ => VUndefined
  end.

Definition names (table : list (gmap string value)) : list value :=
  map (fun o => get o "name") table.

End SkillsView.

(** * Properties *)

(** ** Strings *)

Section StringFacts.

Lemma map_chars_length f s : String.length (map_chars f s) = String.length s.
Proof. induction s as [|c s IH]; simpl; [reflexivity | now rewrite IH]. Qed.

Lemma map_chars_get f s i :
  String.get i (map_chars f s) = option_map f (String.get i s).
Proof.
  revert i. induction s as [|c s IH]; intros i; simpl; [reflexivity |].
  destruct i as [|i]; [reflexivity | apply IH].
Qed.

Lemma map_chars_compose f g s :
  map_chars f (map_chars g s) = map_chars (fun c => f (g c)) s.
Proof. induction s as [|c s IH]; simpl; [reflexivity | now rewrite IH]. Qed.

Lemma map_chars_ext f g s :
  (forall c, f c = g c) -> map_chars f s = map_chars g s.
Proof. intros E. induction s as [|c s IH]; simpl; [reflexivity | now rewrite E, IH]. Qed.

Lemma split_nonempty sep s : split sep s <> [].
Proof.
  destruct s as [|c s]; simpl; [discriminate |].
  destruct (Ascii.eqb c sep); [discriminate |].
  destruct (split sep s); discriminate.
Qed.

(** Splitting at a character and joining with another one replaces every
    occurrence of the first by the second. *)
Lemma join_split (a b : ascii) s :
  join (String b "") (split a s) =
  map_chars (fun c => if Ascii.eqb c a then b else c) s.
Proof.
  induction s as [|c s IH]; simpl; [reflexivity |].
  destruct (Ascii.eqb c a) eqn:E.
  - pose proof (split_nonempty a s) as NE.
    destruct (split a s) as [|piece pieces]; [contradiction |].
    simpl in *. now rewrite IH.
  - pose proof (split_nonempty a s) as NE.
    destruct (split a s) as [|piece pieces]; [contradiction |].
    rewrite <- IH. destruct pieces; reflexivity.
Qed.

Lemma all_chars_map f g s :
  (forall c, f (g c) = true) -> all_chars f (map_chars g s) = true.
Proof.
  intros H. induction s as [|c s IH]; simpl; [reflexivity |].
  now rewrite H, IH.
Qed.

End StringFacts.

(** ** The tag label renderer *)

Section TagFacts.

Import TagLabel.

Lemma label_hyphenates text : label text = map_chars hyphenate text.
Proof. unfold label. apply (join_split " " "-"). Qed.

Lemma slug_char_lower_hyphen c :
  hyphenate (lower_char (hyphenate (lower_char c))) = hyphenate (lower_char c).
Proof. destruct c as [[] [] [] [] [] [] [] []]; reflexivity. Qed.

Lemma slug_char_commute c :
  hyphenate (lower_char c) = lower_char (hyphenate c).
Proof. destruct c as [[] [] [] [] [] [] [] []]; reflexivity. Qed.

Lemma slug_char_safe c :
  negb (Ascii.eqb (hyphenate (lower_char c)) " ") &&
  negb (is_upper (hyphenate (lower_char c))) = true.
Proof. destruct c as [[] [] [] [] [] [] [] []]; reflexivity. Qed.

Lemma kebabCase_chars str :
  kebabCase str = map_chars (fun c => hyphenate (lower_char c)) str.
Proof. unfold kebabCase, toLowerCase. apply map_chars_compose. Qed.

Lemma Tag_href text :
  href_of (Tag text) = VStr ("/tags/" +:+ kebabCase text) /\
  href_of (Tag_anchor text) = VStr ("/tags/" +:+ kebabCase text) /\
  href_of (Tag_legacy text) = VStr ("/tags/" +:+ kebabCase text).
Proof.
  unfold href_of, Tag, Tag_anchor, Tag_legacy, get.
  now rewrite !lookup_insert_eq.
Qed.

(** C2. In every revision of [Tag] the link goes to ["/tags/"] followed by
    the slug of the label text, and that slug is the lowercased text with
    every space replaced by a hyphen: it is what lowercasing, splitting at
    spaces and joining with hyphens gives, it has the length of the text,
    its character at each position is ["-"] where the text has a space and
    the lowercase of the text's character elsewhere, it holds no space and
    no capital letter, and it is the lowercase of the label shown. *)
Theorem Tag_links_to_slug (text : string) :
  let slug := join "-" (split " " (toLowerCase text)) in
  href_of (Tag text) = VStr ("/tags/" +:+ slug) /\
  href_of (Tag_anchor text) = VStr ("/tags/" +:+ slug) /\
  href_of (Tag_legacy text) = VStr ("/tags/" +:+ slug) /\
  String.length slug = String.length text /\
  (forall i, String.get i slug =
     option_map (fun c => if Ascii.eqb c " " then "-"%char else lower_char c)
                (String.get i text)) /\
  all_chars (fun c => negb (Ascii.eqb c " ") && negb (is_upper c)) slug = true /\
  slug = toLowerCase (label text).
Proof.
  intros slug.
  assert (E : slug = kebabCase text).
  { unfold slug, kebabCase. apply (join_split " " "-"). }
  destruct (Tag_href text) as (H1 & H2 & H3).
  rewrite E. repeat split; try assumption.
  - rewrite kebabCase_chars. apply map_chars_length.
  - intros i. rewrite kebabCase_chars, map_chars_get.
    destruct (String.get i text) as [c|]; simpl; [|reflexivity].
    f_equal. destruct c as [[] [] [] [] [] [] [] []]; reflexivity.
  - rewrite kebabCase_chars. apply all_chars_map, slug_char_safe.
  - rewrite label_hyphenates, kebabCase_chars. unfold toLowerCase.
    rewrite map_chars_compose. apply map_chars_ext, slug_char_commute.
Qed.

(** C3. Slug generation is a function of the label alone, so equal labels
    give equal slugs and equal links, and it is idempotent: the slug of a
    slug is that slug, and a tag made from a slug links where the tag made
    from the label does. *)
Theorem kebabCase_deterministic_idempotent :
  (forall s1 s2 : string, s1 = s2 ->
     kebabCase s1 = kebabCase s2 /\ href_of (Tag s1) = href_of (Tag s2)) /\
  (forall s : string, kebabCase (kebabCase s) = kebabCase s) /\
  (forall s : string, href_of (Tag (kebabCase s)) = href_of (Tag s)).
Proof.
  assert (I : forall s, kebabCase (kebabCase s) = kebabCase s).
  { intros s. rewrite !kebabCase_chars, map_chars_compose.
    apply map_chars_ext, slug_char_lower_hyphen. }
  split; [|split].
  - intros s1 s2 ->. split; reflexivity.
  - exact I.
  - intros s. destruct (Tag_href s) as (-> & _).
    destruct (Tag_href (kebabCase s)) as (-> & _). now rewrite I.
Qed.

Lemma kebabCase_deterministic_idempotent_witness :
  "Next JS" = "Next JS" /\
  kebabCase "Next JS" = "next-js" /\
  kebabCase (kebabCase "Next JS") = kebabCase "Next JS" /\
  href_of (Tag "Next JS") = href_of (Tag "Next JS").
Proof.
  destruct kebabCase_deterministic_idempotent as (D & I & _).
  split; [reflexivity |]. split; [reflexivity |]. split; [apply I |].
  apply (D "Next JS" "Next JS"). reflexivity.
Defined.

End TagFacts.

(** ** The link component *)

Section LinkFacts.

Import Links.


Lemma spread_last_lookup written spreaded k :
  spread_last written spreaded !! k =
  match spreaded !! k with
  | Some v => Some v
  | None => written !! k
  end.
Proof.
  unfold spread_last. rewrite lookup_union.
  destruct (spreaded !! k), (written !! k); reflexivity.
Qed.




End LinkFacts.

(** ** The link component on props of any value *)

Section LinkCallFacts.

Import LinkCall.

(** On a call whose address is a string or is not passed, the component
    returns, and returns what [Links.CustomLink] describes. *)
Lemma CustomLink_agrees (p : Links.Props) :
  CustomLink (of_string_call p) = Ok (Links.CustomLink p).
Proof.
  unfold CustomLink, Links.CustomLink, Links.isInternalLink,
    Links.isAnchorLink, of_string_call, and_startsWith.
  cbn [href onClick children rest].
  destruct (Links.href p) as [s|]; cbn [Links.href_value from_option].
  - cbn [truthy Links.href_and_startsWith call_startsWith].
    destruct (String.eqb s "") eqn:E; cbn [negb bind truthy];
      rewrite ?E; reflexivity.
  - reflexivity.
Qed.

Lemma lacks_startsWith_throws (h : value) (c : string) :
  lacks_startsWith h = true -> and_startsWith h c = TypeError.
Proof.
  unfold and_startsWith.
  destruct h as [| |b|n|s|id|items|fields]; simpl; try discriminate.
  - intros ->. reflexivity.
  - intros ->. reflexivity.
  - reflexivity.
  - reflexivity.
  - destruct (fields !! "startsWith") as [[]|]; try reflexivity. discriminate.
Qed.

Lemma string_or_falsy_returns (h : value) (c : string) :
  string_or_falsy h = true -> exists v, and_startsWith h c = Ok v.
Proof.
  unfold and_startsWith.
  destruct h as [| |b|n|s|id|items|fields]; simpl; try discriminate;
    try (intros _; eexists; reflexivity).
  - intros H. apply negb_true_iff in H. rewrite H. eexists; reflexivity.
  - intros H. apply negb_true_iff in H. rewrite H. eexists; reflexivity.
  - intros _. destruct (negb (String.eqb s "")); eexists; reflexivity.
Qed.

(** With a number as [href] and no [children] the call does not return
    [null]: [href.startsWith] is not a function, and that is found out
    before [children] is looked at. *)
Lemma CustomLink_throws_on_number_href :
  node_truthy (children number_href_without_children) = false /\
  CustomLink number_href_without_children = TypeError /\
  CustomLink number_href_without_children <> Ok (NVal VNull).
Proof.
  split; [reflexivity |]. split; [reflexivity | discriminate].
Qed.

(** C9, amended. For every [href] that is a string or a falsy value, and
    whatever the other props are, [CustomLink] returns [null] whenever
    [children] is falsy; whenever it returns an anchor, [children] is
    truthy. With a truthy [href] on which [startsWith] is not a function
    (a number, [true], an array, a function, an object without it) the
    call ends in a [TypeError], with or without [children]. *)
Theorem CustomLink_null_without_children (p : Props) :
  (string_or_falsy (href p) = true ->
   node_truthy (children p) = false ->
   CustomLink p = Ok (NVal VNull)) /\
  (forall n a,
     CustomLink p = Ok n -> Links.anchor_of n = Some a ->
     node_truthy (children p) = true) /\
  (lacks_startsWith (href p) = true -> CustomLink p = TypeError).
Proof.
  split; [|split].
  - intros Hh Hc. unfold CustomLink.
    destruct (string_or_falsy_returns (href p) "/" Hh) as (v1 & ->).
    destruct (string_or_falsy_returns (href p) "#" Hh) as (v2 & ->).
    cbn [bind]. now rewrite Hc.
  - intros n a Hn Ha. unfold CustomLink in Hn.
    destruct (and_startsWith (href p) "/") as [v1| |]; try discriminate.
    destruct (and_startsWith (href p) "#") as [v2| |]; try discriminate.
    cbn [bind] in Hn.
    destruct (node_truthy (children p)); [reflexivity |].
    cbn [negb] in Hn. injection Hn as <-. discriminate.
  - intros Hl. unfold CustomLink.
    now rewrite (lacks_startsWith_throws _ "/" Hl).
Qed.

Lemma CustomLink_null_without_children_witness :
  string_or_falsy (href string_href_without_children) = true /\
  node_truthy (children string_href_without_children) = false /\
  CustomLink string_href_without_children = Ok (NVal VNull) /\
  (exists n a,
     CustomLink null_href_with_children = Ok n /\
     Links.anchor_of n = Some a) /\
  node_truthy (children null_href_with_children) = true /\
  lacks_startsWith (href number_href_without_children) = true /\
  CustomLink number_href_without_children = TypeError.
Proof.
  destruct (CustomLink_null_without_children string_href_without_children)
    as (H1 & _ & _).
  destruct (CustomLink_null_without_children null_href_with_children)
    as (_ & H2 & _).
  destruct (CustomLink_null_without_children number_href_without_children)
    as (_ & _ & H3).
  split; [reflexivity |]. split; [reflexivity |].
  split; [apply H1; reflexivity |].
  split; [eexists _, _; split; reflexivity |].
  split; [eapply H2; reflexivity |].
  split; [reflexivity | apply H3; reflexivity].
Defined.

End LinkCallFacts.

(** ** The clipboard control *)

Section CopyFacts.

Import Copy.

Variable text : Text.

Lemma now_step_mono e st : (now st <= now (step text e st))%N.
Proof. destruct e as [ok|d]; simpl; lia. Qed.

Lemma now_run_mono evs st : (now st <= now (run text evs st))%N.
Proof.
  revert st. induction evs as [|e evs IH]; intros st; [simpl; lia |].
  change (run text (e :: evs) st) with (run text evs (step text e st)).
  pose proof (IH (step text e st)). pose proof (now_step_mono e st). lia.
Qed.

(** A scheduled callback stays pending until the clock reaches its
    deadline. *)
Lemma timer_pending evs st (deadline : N) :
  deadline ∈ timers st ->
  (now (run text evs st) < deadline)%N ->
  deadline ∈ timers (run text evs st).
Proof.
  revert st. induction evs as [|e evs IH]; intros st Hin Hlt; [exact Hin |].
  change (run text (e :: evs) st) with (run text evs (step text e st)) in *.
  apply IH; [|exact Hlt].
  pose proof (now_run_mono evs (step text e st)) as Hmono.
  destruct e as [ok|d]; simpl in *.
  - apply elem_of_app. now left.
  - apply list_elem_of_filter. split; [lia | exact Hin].
Qed.

(** A callback that is due runs and clears the flag. *)
Lemma elapse_due d st (deadline : N) :
  deadline ∈ timers st ->
  (deadline <= now st + d)%N ->
  show (elapse d st) = false.
Proof.
  intros Hin Hle. unfold elapse; simpl.
  assert (Hdue : deadline ∈ filter (fun x => (x <= now st + d)%N) (timers st)).
  { apply list_elem_of_filter. split; assumption. }
  destruct (filter _ (timers st)); [|reflexivity].
  now apply elem_of_nil in Hdue.
Qed.

Lemma show_without_click evs st :
  show st = false ->
  forallb (fun e => negb (is_click e)) evs = true ->
  show (run text evs st) = false.
Proof.
  revert st. induction evs as [|e evs IH]; intros st Hs Hn; [exact Hs |].
  simpl in Hn. apply andb_true_iff in Hn as [He Hn].
  change (run text (e :: evs) st) with (run text evs (step text e st)).
  apply IH; [|exact Hn].
  destruct e as [ok|d]; [discriminate |]. simpl.
  destruct (filter _ (timers st)); [exact Hs | reflexivity].
Qed.

Lemma writes_run evs st :
  writes (run text evs st) =
  writes st ++ replicate (length (List.filter is_click evs)) (contact text).
Proof.
  revert st. induction evs as [|e evs IH]; intros st.
  - simpl. now rewrite app_nil_r.
  - change (run text (e :: evs) st) with (run text evs (step text e st)).
    rewrite IH. destruct e as [ok|d]; simpl; [|reflexivity].
    now rewrite <- app_assoc.
Qed.

End CopyFacts.

Section CopyControl.

Import Copy.

Variable text : Text.

(** C1, amended. An activation toggles the flag: right after it the flag
    is the negation of what it was, so it is true after an activation made
    while the acknowledgment is not showing. Whatever happens in between,
    the flag is false when the 3000 ms of an activation have elapsed. *)
Theorem handleClick_toggles_and_times_out (st : State) (fulfilled : bool) :
  show (handleClick text fulfilled st) = negb (show st) /\
  (show st = false -> show (handleClick text fulfilled st) = true) /\
  (forall evs d,
     let st1 := run text evs (handleClick text fulfilled st) in
     (now st1 < now st + 3000 <= now st1 + d)%N ->
     show (elapse d st1) = false).
Proof.
  split; [reflexivity |]. split.
  - intros Hs. simpl. now rewrite Hs.
  - intros evs d st1 [Hlt Hle].
    apply (elapse_due d st1 (now st + delay)%N); [|exact Hle].
    apply timer_pending; [|exact Hlt].
    simpl. apply elem_of_app. right. apply list_elem_of_singleton. reflexivity.
Qed.

(** C4. From the initial state the flag is true only after an activation:
    a session whose flag is true contains a click, and the flag is false in
    the state before the first click. *)
Theorem show_needs_activation (evs : list event) :
  show (run text evs init) = true ->
  exists fulfilled before after,
    evs = before ++ Click fulfilled :: after /\
    forallb (fun e => negb (is_click e)) before = true /\
    show (run text before init) = false.
Proof.
  intros Hshow.
  assert (G : forall l,
    forallb (fun e => negb (is_click e)) l = true \/
    exists ok before after, l = before ++ Click ok :: after /\
      forallb (fun e => negb (is_click e)) before = true).
  { induction l as [|e l IH]; [now left |].
    destruct e as [ok|d].
    - right. exists ok, [], l. split; reflexivity.
    - destruct IH as [IH | (ok & before & after & -> & Hb)].
      + left. exact IH.
      + right. exists ok, (Elapse d :: before), after. split; [reflexivity | exact Hb]. }
  destruct (G evs) as [Hnone | (ok & before & after & -> & Hb)].
  - rewrite (show_without_click text evs init eq_refl Hnone) in Hshow.
    discriminate.
  - exists ok, before, after. split; [reflexivity |]. split; [exact Hb |].
    now apply show_without_click.
Qed.

(** C5. Every activation asks the clipboard to hold [text.contact],
    whatever the state of the component: the request is appended to the
    requests so far, a fulfilled write leaves that string on the clipboard,
    and after any session the requests are as many copies of
    [text.contact] as there were clicks. *)
Theorem handleClick_writes_contact :
  (forall st fulfilled,
     writes (handleClick text fulfilled st) = writes st ++ [contact text]) /\
  (forall st, clipboard (handleClick text true st) = Some (contact text)) /\
  (forall evs,
     writes (run text evs init) =
     replicate (length (List.filter is_click evs)) (contact text)) /\
  (forall evs,
     Forall (fun w => w = "ananthanandanan@gmail.com")
            (writes (run Hero_text evs init))).
Proof.
  split; [reflexivity |]. split; [reflexivity |]. split.
  - intros evs. apply writes_run.
  - intros evs. rewrite writes_run. apply Forall_replicate. reflexivity.
Qed.

(** C6. The handler does not look at the outcome of the clipboard write:
    the flag, the scheduled callbacks, the clock and the requests are the
    same after a rejected write as after a fulfilled one, and a rejected
    write leaves the clipboard as it was. *)
Theorem handleClick_ignores_write_outcome (st : State) :
  component_state (handleClick text false st) =
    component_state (handleClick text true st) /\
  component_state (handleClick text false st) =
    (negb (show st), timers st ++ [(now st + 3000)%N]) /\
  now (handleClick text false st) = now (handleClick text true st) /\
  writes (handleClick text false st) = writes (handleClick text true st) /\
  clipboard (handleClick text false st) = clipboard st.
Proof. repeat split. Qed.

End CopyControl.

Section CopySessions.

Import Copy.

(** A second click one second after the first. *)
Lemma click_while_showing_hides :
  show (run Hero_text [Click true; Elapse 1000] init) = true /\
  show (handleClick Hero_text true
          (run Hero_text [Click true; Elapse 1000] init)) = false /\
  ~ (forall evs fulfilled,
       show (handleClick Hero_text fulfilled (run Hero_text evs init)) = true).
Proof.
  split; [reflexivity |]. split; [reflexivity |].
  intros H. specialize (H [Click true; Elapse 1000] true). discriminate H.
Qed.

Lemma handleClick_toggles_and_times_out_witness :
  show init = false /\
  show (handleClick Hero_text true init) = true /\
  (now (run Hero_text [Elapse 500; Click true; Elapse 500; Click false]
          (handleClick Hero_text true init))
   < now init + 3000
   <= now (run Hero_text [Elapse 500; Click true; Elapse 500; Click false]
             (handleClick Hero_text true init)) + 2000)%N /\
  show (elapse 2000
          (run Hero_text [Elapse 500; Click true; Elapse 500; Click false]
             (handleClick Hero_text true init))) = false.
Proof.
  assert (T : (now (run Hero_text
                      [Elapse 500; Click true; Elapse 500; Click false]
                      (handleClick Hero_text true init))
               < now init + 3000
               <= now (run Hero_text
                         [Elapse 500; Click true; Elapse 500; Click false]
                         (handleClick Hero_text true init)) + 2000)%N).
  { vm_compute. split; [reflexivity | discriminate]. }
  destruct (handleClick_toggles_and_times_out Hero_text init true)
    as (_ & H1 & H2).
  split; [reflexivity |]. split; [apply H1; reflexivity |].
  split; [exact T |].
  exact (H2 [Elapse 500; Click true; Elapse 500; Click false] 2000%N T).
Defined.

Lemma show_needs_activation_witness :
  show (run Hero_text [Elapse 10; Click true; Elapse 20] init) = true /\
  exists fulfilled before after,
    [Elapse 10; Click true; Elapse 20] = before ++ Click fulfilled :: after /\
    forallb (fun e => negb (is_click e)) before = true /\
    show (run Hero_text before init) = false.
Proof.
  split; [reflexivity |].
  apply (show_needs_activation Hero_text [Elapse 10; Click true; Elapse 20]).
  reflexivity.
Defined.

End CopySessions.

(** ** The static tables *)

Section TableFacts.

Import Tables.

Lemma has_textb_sound o k : has_textb o k = true -> has_text o k.
Proof.
  unfold has_textb, has_text. destruct (o !! k) as [[]|]; try discriminate.
  intros H. eexists. split; [reflexivity |].
  intros ->. discriminate.
Qed.

Lemma has_listb_sound o k : has_listb o k = true -> has_list o k.
Proof.
  unfold has_listb, has_list. destruct (o !! k) as [[]|]; try discriminate.
  intros _. eexists. reflexivity.
Qed.

Lemma has_refb_sound o k : has_refb o k = true -> has_ref o k.
Proof.
  unfold has_refb, has_ref. destruct (o !! k) as [[]|]; try discriminate.
  intros H. eexists. split; [reflexivity |].
  intros ->. discriminate.
Qed.

Lemma Forall_of_forallb {A} (f : A -> bool) (P : A -> Prop) (l : list A) :
  (forall x, f x = true -> P x) -> forallb f l = true -> Forall P l.
Proof.
  intros Hf. induction l as [|x l IH]; simpl; intros H; constructor.
  - apply Hf. now apply andb_true_iff in H as [H _].
  - apply IH. now apply andb_true_iff in H as [_ H].
Qed.

(** C7. Every entry of the three tables has its required fields: a tool
    has a non-empty [id], [link] and [name], lists as [category] and
    [labels] and a [description]; a project has a non-empty [title] and
    [href]; a skill has a non-empty [name] and a [logo] component. *)
Theorem tables_have_required_fields :
  Forall (fun o => has_text o "id" /\ has_text o "link" /\ has_text o "name" /\
                   has_list o "category" /\ has_list o "labels" /\
                   has_text o "description") Tools /\
  Forall (fun o => has_text o "title" /\ has_text o "href") projectsData /\
  Forall (fun o => has_text o "name" /\ has_ref o "logo") skills /\
  Forall (fun o => has_text o "name" /\ has_ref o "logo") skills_earlier.
Proof.
  assert (S : forall o, skill_ok o = true ->
                        has_text o "name" /\ has_ref o "logo").
  { intros o H. unfold skill_ok in H. rewrite andb_true_iff in H.
    destruct H as [H1 H2]. auto using has_textb_sound, has_refb_sound. }
  split; [|split; [|split]].
  - apply (Forall_of_forallb tool_ok); [|vm_compute; reflexivity].
    intros o H. unfold tool_ok in H. rewrite !andb_true_iff in H.
    destruct H as [[[[[H1 H2] H3] H4] H5] H6].
    auto 10 using has_textb_sound, has_listb_sound.
  - apply (Forall_of_forallb project_ok); [|vm_compute; reflexivity].
    intros o H. unfold project_ok in H. rewrite andb_true_iff in H.
    destruct H as [H1 H2]. auto using has_textb_sound.
  - apply (Forall_of_forallb skill_ok); [exact S | vm_compute; reflexivity].
  - apply (Forall_of_forallb skill_ok); [exact S | vm_compute; reflexivity].
Qed.

End TableFacts.

(** * Further properties *)

(** ** The clock and the pending callbacks *)

Section FilterFacts.

Context {A : Type} (P : A -> Prop) {Pdec : forall x, Decision (P x)}.

Lemma filter_nil_Forall (l : list A) : filter P l = [] <-> Forall (fun x => ~ P x) l.
Proof.
  induction l as [|x l IH].
  - split; [constructor | reflexivity].
  - rewrite filter_cons. destruct (decide (P x)) as [Hx|Hx].
    + split; [discriminate |]. intros H. inversion H; contradiction.
    + rewrite IH. split.
      * intros H. constructor; assumption.
      * intros H. inversion H; assumption.
Qed.

Lemma filter_StronglySorted (R : relation A) (l : list A) :
  StronglySorted R l -> StronglySorted R (filter P l).
Proof.
  induction 1 as [|x l Hl IH Hx]; [constructor |].
  rewrite filter_cons. destruct (decide (P x)); [|exact IH].
  constructor; [exact IH |].
  apply Forall_forall. intros y Hy. apply list_elem_of_filter in Hy as [_ Hy].
  rewrite Forall_forall in Hx. now apply Hx.
Qed.

End FilterFacts.

Section TimerFacts.

Import Copy CopyTimers.

Variable text : Text.

Lemma run_cons e evs st :
  run text (e :: evs) st = run text evs (step text e st).
Proof. reflexivity. Qed.

Lemma init_consistent : consistent init.
Proof.
  unfold consistent, timely, in_order, reset_pending. simpl.
  split; [constructor |]. split; [constructor | reflexivity].
Qed.

Lemma step_consistent e st : consistent st -> consistent (step text e st).
Proof.
  intros (Ht & Ho & Hr). unfold timely, in_order, reset_pending in *.
  destruct e as [ok|d]; simpl.
  - split; [|split].
    + apply Forall_app. split; [exact Ht |].
      constructor; [simpl; unfold delay; lia | constructor].
    + apply StronglySorted_app_2; [|exact Ho | repeat constructor].
      intros x1 x2 H1 H2. apply list_elem_of_singleton in H2 as ->.
      rewrite Forall_forall in Ht. apply Ht in H1. lia.
    + intros H. now apply app_eq_nil in H as [_ H].
  - split; [|split].
    + apply Forall_forall. intros x Hx.
      apply list_elem_of_filter in Hx as [Hx1 Hx2].
      rewrite Forall_forall in Ht. apply Ht in Hx2. simpl. lia.
    + now apply filter_StronglySorted.
    + intros H. simpl in H. apply filter_nil_Forall in H. simpl.
      destruct (timers st) as [|x l] eqn:E; [now apply Hr |].
      rewrite filter_cons. inversion H as [|? ? Hx _]; subst.
      destruct (decide (x <= now st + d)%N); [reflexivity | lia].
Qed.

Lemma run_consistent evs st : consistent st -> consistent (run text evs st).
Proof.
  revert st. induction evs as [|e evs IH]; intros st H; [exact H |].
  rewrite run_cons. apply IH. now apply step_consistent.
Qed.

Lemma pending_bound evs st :
  length (timers (run text evs st)) <=
  length (timers st) + length (List.filter is_click evs).
Proof.
  revert st. induction evs as [|e evs IH]; intros st; [simpl; lia |].
  rewrite run_cons. specialize (IH (step text e st)).
  destruct e as [ok|d]; simpl in *.
  - rewrite length_app in IH. simpl in IH. lia.
  - pose proof (length_filter (fun x => (now st + d < x)%N) (timers st)). lia.
Qed.

(** X1. Passing time in two stretches is passing it in one: the same flag, the
    same clock, the same callbacks left. *)
Theorem elapse_elapse (d1 d2 : N) (st : State) :
  elapse d2 (elapse d1 st) = elapse (d1 + d2) st.
Proof.
  unfold elapse; simpl.
  rewrite <- N.add_assoc.
  set (t1 := (now st + d1)%N). set (t2 := (now st + (d1 + d2))%N).
  assert (Ht : (t1 <= t2)%N) by (unfold t1, t2; lia).
  clearbody t1 t2. f_equal.
  - induction (timers st) as [|x l IH]; [reflexivity |].
    rewrite !(filter_cons _ x).
    destruct (decide (t1 < x)%N) as [H1|H1].
    + rewrite filter_cons.
      destruct (decide (x <= t1)%N); [lia |].
      destruct (decide (x <= t2)%N); [reflexivity | exact IH].
    + destruct (decide (x <= t1)%N); [|lia].
      destruct (decide (x <= t2)%N); [|lia].
      destruct (filter _ (filter _ l)); reflexivity.
  - induction (timers st) as [|x l IH]; [reflexivity |].
    rewrite !(filter_cons _ x).
    destruct (decide (t1 < x)%N) as [H1|H1].
    + rewrite filter_cons.
      destruct (decide (t2 < x)%N); [now rewrite IH | exact IH].
    + destruct (decide (t2 < x)%N); [lia | exact IH].
Qed.

(** X2. In every state of a session the pending callbacks are due after the
    current instant and within 3000 ms of it, they are pending in the order
    of their deadlines, and there are no more of them than there were
    clicks. *)
Theorem session_timers_bounded (evs : list event) :
  Forall (fun deadline =>
            (now (run text evs init) < deadline
             <= now (run text evs init) + 3000)%N)
         (timers (run text evs init)) /\
  StronglySorted N.le (timers (run text evs init)) /\
  length (timers (run text evs init)) <= length (List.filter is_click evs).
Proof.
  destruct (run_consistent evs init init_consistent) as (Ht & Ho & _).
  split; [exact Ht |]. split; [exact Ho |].
  apply (pending_bound evs init).
Qed.

(** X3. A flag that is set always has a callback pending that will clear it,
    so once 3000 ms pass without a click the flag is clear and nothing is
    pending. *)
Theorem acknowledgment_always_reset (evs : list event) :
  (show (run text evs init) = true -> timers (run text evs init) <> []) /\
  (forall d, (3000 <= d)%N ->
     show (elapse d (run text evs init)) = false /\
     timers (elapse d (run text evs init)) = []).
Proof.
  destruct (run_consistent evs init init_consistent) as (Ht & _ & Hr).
  unfold timely, reset_pending, delay in *.
  set (st := run text evs init) in *. split.
  - intros Hs He. rewrite (Hr He) in Hs. discriminate.
  - intros d Hd.
    assert (Hnone : timers (elapse d st) = []).
    { simpl. apply filter_nil_Forall. eapply Forall_impl; [exact Ht |].
      simpl. intros x Hx. lia. }
    split; [|exact Hnone].
    destruct (step_consistent (Elapse d) st) as (_ & _ & Hr').
    { split; [exact Ht |]. split; [|exact Hr].
      now destruct (run_consistent evs init init_consistent) as (_ & Ho & _). }
    now apply Hr'.
Qed.

(** X4. When nothing is pending, a click shows the acknowledgment for exactly
    3000 ms: the flag is set until then and clear from then on. *)
Theorem lone_click_shows_for_delay (evs : list event) (fulfilled : bool) (d : N) :
  timers (run text evs init) = [] ->
  show (elapse d (handleClick text fulfilled (run text evs init))) =
  bool_decide (d < 3000)%N.
Proof.
  intros He.
  destruct (run_consistent evs init init_consistent) as (_ & _ & Hr).
  specialize (Hr He). set (st := run text evs init) in *.
  unfold elapse, handleClick; simpl. rewrite He, Hr. simpl.
  rewrite filter_cons, filter_nil. unfold delay.
  destruct (decide (now st + 3000 <= now st + d)%N).
  - rewrite bool_decide_eq_false_2; [reflexivity | lia].
  - rewrite bool_decide_eq_true_2; [reflexivity | lia].
Qed.


(** X6. A callback scheduled by an earlier click clears the flag when it runs,
    also when a later click has just set it: the acknowledgment of that
    later click is then shown for less than its own delay. *)
Theorem earlier_callback_cuts_short (st : State) (fulfilled : bool)
    (deadline d : N) :
  deadline ∈ timers st ->
  (deadline <= now st + d)%N ->
  show (elapse d (handleClick text fulfilled st)) = false.
Proof.
  intros Hin Hle. apply (elapse_due d _ deadline); [|exact Hle].
  simpl. apply elem_of_app. now left.
Qed.

Lemma clipboard_run evs st :
  clipboard (run text evs st) =
  if existsb is_fulfilled_click evs then Some (contact text) else clipboard st.
Proof.
  revert st. induction evs as [|e evs IH]; intros st; [reflexivity |].
  rewrite run_cons, IH. simpl.
  destruct e as [[|]|d]; simpl; try reflexivity.
  now destruct (existsb is_fulfilled_click evs).
Qed.

(** X7. The clipboard holds [text.contact] from the first fulfilled write on
    and is untouched before: no callback and no rejected write changes
    it. *)
Theorem clipboard_after_session (evs : list event) :
  clipboard (run text evs init) =
  if existsb is_fulfilled_click evs then Some (contact text) else None.
Proof. apply clipboard_run. Qed.

End TimerFacts.

Section TimerSessions.

Import Copy CopyTimers.

Lemma acknowledgment_always_reset_witness :
  show (run Hero_text two_clicks init) = false /\
  show (run Hero_text [Click true; Elapse 2999] init) = true /\
  timers (run Hero_text [Click true; Elapse 2999] init) <> [] /\
  (3000 <= 3000)%N /\
  show (elapse 3000 (run Hero_text two_clicks init)) = false /\
  timers (elapse 3000 (run Hero_text two_clicks init)) = [].
Proof.
  split; [reflexivity |]. split; [reflexivity |]. split.
  - apply (acknowledgment_always_reset Hero_text [Click true; Elapse 2999]).
    reflexivity.
  - split; [discriminate |].
    apply (proj2 (acknowledgment_always_reset Hero_text two_clicks) 3000%N).
    discriminate.
Defined.

Lemma lone_click_shows_for_delay_witness :
  timers (run Hero_text [Click true; Elapse 3000] init) = [] /\
  show (elapse 2999
          (handleClick Hero_text false
             (run Hero_text [Click true; Elapse 3000] init))) = true /\
  show (elapse 3000
          (handleClick Hero_text false
             (run Hero_text [Click true; Elapse 3000] init))) = false.
Proof.
  split; [reflexivity |]. split.
  - apply (lone_click_shows_for_delay Hero_text [Click true; Elapse 3000]
             false 2999%N eq_refl).
  - apply (lone_click_shows_for_delay Hero_text [Click true; Elapse 3000]
             false 3000%N eq_refl).
Defined.

Lemma earlier_callback_cuts_short_witness :
  3000%N ∈ timers (run Hero_text two_clicks init) /\
  (3000 <= now (run Hero_text two_clicks init) + 1000)%N /\
  show (run Hero_text two_clicks init) = false /\
  show (handleClick Hero_text true (run Hero_text two_clicks init)) = true /\
  show (elapse 1000
          (handleClick Hero_text true (run Hero_text two_clicks init))) = false.
Proof.
  assert (Hin : 3000%N ∈ timers (run Hero_text two_clicks init)).
  { vm_compute. apply list_elem_of_here. }
  assert (Hle : (3000 <= now (run Hero_text two_clicks init) + 1000)%N).
  { vm_compute. discriminate. }
  split; [exact Hin |]. split; [exact Hle |].
  split; [reflexivity |]. split; [reflexivity |].
  exact (earlier_callback_cuts_short Hero_text
           (run Hero_text two_clicks init) true 3000%N 1000%N Hin Hle).
Defined.

End TimerSessions.

(** ** The visible label of a tag *)

Section LabelFacts.

Import TagLabel.

Lemma map_chars_fixed f s :
  all_chars (fun c => Ascii.eqb (f c) c) s = true -> map_chars f s = s.
Proof.
  induction s as [|c s IH]; simpl; [reflexivity |].
  intros H. apply andb_true_iff in H as [Hc Hs].
  apply Ascii.eqb_eq in Hc. now rewrite Hc, IH.
Qed.

Lemma all_chars_impl (f g : ascii -> bool) s :
  (forall c, f c = true -> g c = true) ->
  all_chars f s = true -> all_chars g s = true.
Proof.
  intros Hfg. induction s as [|c s IH]; simpl; [reflexivity |].
  intros H. apply andb_true_iff in H as [Hc Hs].
  now rewrite (Hfg c Hc), IH.
Qed.

(** X8. The label shown for a tag is its text with every space replaced by a
    hyphen and nothing else changed: the same length, the same character
    at each position but for the spaces, no space left; doing it twice
    changes nothing more, and a text without spaces is shown as it is. *)
Theorem label_replaces_spaces (text : string) :
  String.length (label text) = String.length text /\
  (forall i, String.get i (label text) =
     option_map (fun c => if Ascii.eqb c " " then "-"%char else c)
                (String.get i text)) /\
  all_chars (fun c => negb (Ascii.eqb c " ")) (label text) = true /\
  label (label text) = label text /\
  (all_chars (fun c => negb (Ascii.eqb c " ")) text = true ->
   label text = text).
Proof.
  rewrite !label_hyphenates. split; [apply map_chars_length |].
  split; [intros i; apply map_chars_get |].
  split.
  { apply all_chars_map. intros c. unfold hyphenate.
    destruct (Ascii.eqb c " ") eqn:E; [reflexivity | now rewrite E]. }
  split.
  { rewrite map_chars_compose. apply map_chars_ext. intros c.
    unfold hyphenate. destruct (Ascii.eqb c " ") eqn:E; [reflexivity |].
    now rewrite E. }
  intros H. apply map_chars_fixed. revert H. apply all_chars_impl.
  intros c Hc. unfold hyphenate.
  destruct (Ascii.eqb c " "); [discriminate | apply Ascii.eqb_refl].
Qed.

Lemma label_replaces_spaces_witness :
  all_chars (fun c => negb (Ascii.eqb c " ")) "TypeScript" = true /\
  label "TypeScript" = "TypeScript" /\
  label "Machine Learning" = "Machine-Learning".
Proof.
  split; [reflexivity |]. split; [|reflexivity].
  apply (label_replaces_spaces "TypeScript"). reflexivity.
Defined.

End LabelFacts.

(** ** What the link component passes on *)

Section LinkForwarding.

Import Links.

Lemma CustomLink_anchor (p : Props) :
  node_truthy (children p) = true ->
  exists written,
    anchor_of (CustomLink p) =
      Some (NElem "a" (spread_last written (rest p)) [children p]) /\
    written !! "onClick" = Some (onClick p) /\
    written !! "href" =
      match classify (href p) with
      | Internal => None
      | _ => Some (href_value (href p))
      end.
Proof.
  intros Hc. unfold CustomLink, classify, isInternalLink, isAnchorLink.
  rewrite Hc. simpl.
  destruct (href_and_startsWith (href p) "/").
  { eexists. split; [reflexivity |]. split; [apply lookup_insert_eq |].
    rewrite lookup_insert_ne by discriminate. apply lookup_empty. }
  destruct (href_and_startsWith (href p) "#").
  - eexists. split; [reflexivity |]. split; [|apply lookup_insert_eq].
    rewrite lookup_insert_ne by discriminate. apply lookup_insert_eq.
  - eexists. split; [reflexivity |].
    rewrite !(lookup_insert_ne _ "target") by discriminate.
    rewrite !(lookup_insert_ne _ "rel") by discriminate.
    split; [|apply lookup_insert_eq].
    rewrite lookup_insert_ne by discriminate. apply lookup_insert_eq.
Qed.

Lemma CustomLink_external_defaults (p : Props) :
  node_truthy (children p) = true ->
  classify (href p) = External ->
  rest p !! "target" = None ->
  rest p !! "rel" = None ->
  rest p !! "href" = None ->
  exists attrs,
    CustomLink p = NElem "a" attrs [children p] /\
    attrs !! "target" = Some (VStr "_blank") /\
    attrs !! "rel" = Some (VStr "noopener noreferrer") /\
    attrs !! "href" = Some (href_value (href p)) /\
    (forall k v, rest p !! k = Some v -> attrs !! k = Some v).
Proof.
  intros Hc Hk Ht Hr Hh. unfold classify in Hk.
  unfold CustomLink, isInternalLink, isAnchorLink. rewrite Hc. cbn [negb].
  destruct (href_and_startsWith (href p) "/"); [discriminate |].
  destruct (href_and_startsWith (href p) "#"); [discriminate |].
  eexists. split; [reflexivity |].
  rewrite !spread_last_lookup, Ht, Hr, Hh.
  split; [apply lookup_insert_eq |].
  split; [rewrite lookup_insert_ne by discriminate; apply lookup_insert_eq |].
  split.
  - rewrite !lookup_insert_ne by discriminate. apply lookup_insert_eq.
  - intros k v Hv. rewrite spread_last_lookup. now rewrite Hv.
Qed.

(** X9. Whichever of the three cases applies, a link with content has an
    anchor whose only child is that content and which carries every one of
    the remaining props with the value the caller gave it. *)
Theorem CustomLink_forwards_rest (p : Props) :
  node_truthy (children p) = true ->
  exists a,
    anchor_of (CustomLink p) = Some a /\
    tag_of a = Some "a" /\
    kids_of a = [children p] /\
    (forall k v, rest p !! k = Some v -> props_of a !! k = Some v).
Proof.
  intros Hc. destruct (CustomLink_anchor p Hc) as (written & Ha & _).
  eexists. split; [exact Ha |]. split; [reflexivity |].
  split; [reflexivity |].
  intros k v Hk. simpl. rewrite spread_last_lookup. now rewrite Hk.
Qed.

(** X10. The click handler always ends up on the anchor. The address is on the
    anchor for in-page and external links; for an internal link it is on
    the [Link] wrapper, together with [passHref] and [legacyBehavior], and
    the anchor itself is given none. The remaining props hold neither
    [href] nor [onClick], which are taken out of them. *)
Theorem CustomLink_places_href_and_onClick (p : Props) :
  node_truthy (children p) = true ->
  rest p !! "href" = None ->
  rest p !! "onClick" = None ->
  exists a,
    anchor_of (CustomLink p) = Some a /\
    props_of a !! "onClick" = Some (onClick p) /\
    match classify (href p) with
    | Internal =>
        tag_of (CustomLink p) = Some "Link" /\
        props_of (CustomLink p) !! "href" = Some (href_value (href p)) /\
        props_of (CustomLink p) !! "passHref" = Some (VBool true) /\
        props_of (CustomLink p) !! "legacyBehavior" = Some (VBool true) /\
        props_of a !! "href" = None
    | InPage | External =>
        CustomLink p = a /\
        props_of a !! "href" = Some (href_value (href p))
    end.
Proof.
  intros Hc Hh Ho. destruct (CustomLink_anchor p Hc) as (written & Ha & Wo & Wh).
  eexists. split; [exact Ha |]. simpl. rewrite !spread_last_lookup, Hh, Ho.
  split; [exact Wo |].
  revert Ha Wh. unfold CustomLink, classify, isInternalLink, isAnchorLink.
  rewrite Hc. simpl.
  destruct (href_and_startsWith (href p) "/").
  { intros _ Wh. cbn [props_of tag_of]. split; [reflexivity |].
    split; [apply lookup_insert_eq |].
    split; [rewrite lookup_insert_ne by discriminate; apply lookup_insert_eq |].
    split; [|exact Wh].
    rewrite !lookup_insert_ne by discriminate. apply lookup_insert_eq. }
  destruct (href_and_startsWith (href p) "#"); simpl;
    intros Ha Wh; (split; [congruence | exact Wh]).
Qed.

Lemma CustomLink_forwards_rest_witness :
  node_truthy (children internal_with_children) = true /\
  exists a,
    anchor_of (CustomLink internal_with_children) = Some a /\
    props_of a !! "className" = Some (VStr "underline").
Proof.
  split; [reflexivity |].
  destruct (CustomLink_forwards_rest internal_with_children eq_refl)
    as (a & Ha & _ & _ & Hf).
  exists a. split; [exact Ha |]. apply Hf. vm_compute. reflexivity.
Defined.

Lemma CustomLink_places_href_and_onClick_witness :
  node_truthy (children internal_with_children) = true /\
  rest internal_with_children !! "href" = None /\
  rest internal_with_children !! "onClick" = None /\
  exists a,
    anchor_of (CustomLink internal_with_children) = Some a /\
    props_of a !! "onClick" = Some (VRef "track") /\
    props_of (CustomLink internal_with_children) !! "href" =
      Some (VStr "/about").
Proof.
  assert (Hh : rest internal_with_children !! "href" = None)
    by (vm_compute; reflexivity).
  assert (Ho : rest internal_with_children !! "onClick" = None)
    by (vm_compute; reflexivity).
  split; [reflexivity |]. split; [exact Hh |]. split; [exact Ho |].
  destruct (CustomLink_places_href_and_onClick internal_with_children
              eq_refl Hh Ho) as (a & Ha & Hc & Hk).
  change (classify (href internal_with_children)) with Internal in Hk.
  destruct Hk as (_ & Hk & _).
  exists a. split; [exact Ha |]. split; [exact Hc | exact Hk].
Defined.

End LinkForwarding.

(** ** The social links of the banner *)

Section BannerFacts.

Import Links Banner.

(** X11. [SocialLink] of the banner writes [legacyBehavior] after the spread
    and [className] before it: the link is in legacy mode whatever the
    caller passes, the caller's [className] replaces the default one, every
    other prop arrives as given, and the icon is the only child. *)
Theorem SocialLink_spread_order (icon : string) (props : gmap string value) :
  props_of (SocialLink icon props) !! "legacyBehavior" = Some (VBool true) /\
  props_of (SocialLink icon props) !! "className" =
    Some (default (VStr "-m-1 p-1 ") (props !! "className")) /\
  (forall k, k <> "legacyBehavior" -> k <> "className" ->
     props_of (SocialLink icon props) !! k = props !! k) /\
  kids_of (SocialLink icon props) =
    [NElem icon (obj [("className", VStr iconClass)]) []].
Proof.
  unfold SocialLink. cbn [props_of kids_of].
  split; [apply lookup_insert_eq |]. split; [|split; [|reflexivity]].
  - rewrite lookup_insert_ne by discriminate. rewrite spread_last_lookup.
    destruct (props !! "className"); reflexivity.
  - intros k Hl Hc. rewrite lookup_insert_ne by congruence.
    rewrite spread_last_lookup. destruct (props !! k); [reflexivity |].
    unfold obj. simpl. rewrite lookup_insert_ne by congruence.
    apply lookup_empty.
Qed.

Lemma SocialLink_spread_order_witness :
  "href" <> "legacyBehavior" /\ "href" <> "className" /\
  props_of
    (SocialLink "IoLogoGithub"
       (obj [("href", VStr "https://github.com/ananthanandanan");
             ("legacyBehavior", VBool false)])) !! "href" =
  Some (VStr "https://github.com/ananthanandanan") /\
  props_of
    (SocialLink "IoLogoGithub"
       (obj [("href", VStr "https://github.com/ananthanandanan");
             ("legacyBehavior", VBool false)])) !! "legacyBehavior" =
  Some (VBool true).
Proof.
  split; [discriminate |]. split; [discriminate |].
  destruct (SocialLink_spread_order "IoLogoGithub"
              (obj [("href", VStr "https://github.com/ananthanandanan");
                    ("legacyBehavior", VBool false)])) as (Hl & _ & Hk & _).
  split; [|exact Hl].
  rewrite (Hk "href") by discriminate. vm_compute. reflexivity.
Defined.

End BannerFacts.

(** ** The social links of the about page *)

Section AboutFacts.

Import Links AboutPage.

Lemma link_content_truthy children icon :
  node_truthy (link_content children icon) = true.
Proof. reflexivity. Qed.

(** X12. A social link of the about page is always rendered, whatever its
    address: the item holds one link, whose anchor carries the link's own
    class and wraps the icon and the text. The [className] the page passes
    makes no difference to the result. *)
Theorem about_SocialLink_rendered (className : value) (href : option string)
    (children : node) (icon : string) :
  (exists l a,
     link_of (SocialLink className href children icon) = Some l /\
     anchor_of l = Some a /\
     kids_of a = [link_content children icon] /\
     props_of a !! "className" = Some (VStr linkClass)) /\
  (forall className',
     SocialLink className' href children icon =
     SocialLink className href children icon).
Proof.
  split; [|reflexivity].
  set (p := about_link_props href children icon).
  destruct (CustomLink_anchor p (link_content_truthy children icon))
    as (written & Ha & _).
  exists (CustomLink p), (NElem "a" (spread_last written (rest p)) [Links.children p]).
  split; [reflexivity |]. split; [exact Ha |].
  split; [reflexivity |].
  cbn [props_of]. rewrite spread_last_lookup. reflexivity.
Qed.

(** X13. A social link of the about page whose address starts with neither
    ["/"] nor ["#"] is an anchor that opens in a new tab with
    [rel="noopener noreferrer"]: the page passes nothing that could replace
    them. *)
Theorem about_SocialLink_external (className : value) (href : option string)
    (children : node) (icon : string) :
  classify href = External ->
  exists attrs,
    SocialLink className href children icon =
      NElem "li" (obj [("className", VStr "flex")])
        [NElem "a" attrs [link_content children icon]] /\
    attrs !! "target" = Some (VStr "_blank") /\
    attrs !! "rel" = Some (VStr "noopener noreferrer") /\
    attrs !! "href" = Some (href_value href) /\
    attrs !! "className" = Some (VStr linkClass).
Proof.
  intros Hk.
  destruct (CustomLink_external_defaults (about_link_props href children icon)
              eq_refl Hk eq_refl eq_refl eq_refl)
    as (attrs & H1 & H2 & H3 & H4 & H5).
  exists attrs. unfold SocialLink.
  split; [rewrite H1; reflexivity |]. split; [exact H2 |]. split; [exact H3 |].
  split; [exact H4 |]. apply H5. reflexivity.
Qed.

Lemma about_SocialLink_external_witness :
  classify (Some "https://github.com/ananthanandanan") = External /\
  exists attrs,
    SocialLink (VStr "mt-4") (Some "https://github.com/ananthanandanan")
      (NVal (VStr "Follow on GitHub")) "GitHubIcon" =
      NElem "li" (obj [("className", VStr "flex")])
        [NElem "a" attrs
           [link_content (NVal (VStr "Follow on GitHub")) "GitHubIcon"]] /\
    attrs !! "target" = Some (VStr "_blank").
Proof.
  split; [reflexivity |].
  destruct (about_SocialLink_external (VStr "mt-4")
              (Some "https://github.com/ananthanandanan")
              (NVal (VStr "Follow on GitHub")) "GitHubIcon" eq_refl)
    as (attrs & H1 & H2 & _).
  exists attrs. split; [exact H1 | exact H2].
Defined.

(** X14. Whatever address the metadata gives for mail, the third link of the
    page is an external one: an anchor to ["mailto:"] followed by the
    address, opened in a new tab. *)
Theorem About_mail_link (github linkedin : option string) (email : string) :
  exists attrs,
    kids_of (About_links github linkedin email) !! 2%nat =
      Some (NElem "li" (obj [("className", VStr "flex")])
              [NElem "a" attrs
                 [link_content (NVal (VStr "ananthanandanan@gmail.com"))
                    "MailIcon"]]) /\
    attrs !! "href" = Some (VStr ("mailto:" +:+ email)) /\
    attrs !! "target" = Some (VStr "_blank") /\
    attrs !! "rel" = Some (VStr "noopener noreferrer").
Proof.
  destruct (CustomLink_external_defaults
              (about_link_props (Some ("mailto:" +:+ email))
                 (NVal (VStr "ananthanandanan@gmail.com")) "MailIcon")
              eq_refl eq_refl eq_refl eq_refl eq_refl)
    as (attrs & H1 & H2 & H3 & H4 & _).
  exists attrs. split; [|split; [exact H4 | split; [exact H2 | exact H3]]].
  cbn [About_links kids_of]. simpl lookup. unfold SocialLink.
  rewrite H1. reflexivity.
Qed.

End AboutFacts.

(** ** The cards of the skills grid *)

Section SkillsFacts.

Import SkillsGrid SkillsView.

Lemma skill_card_name (skill : gmap string value) :
  title_of (skill_card skill) = get skill "name" /\
  key_of (skill_card skill) = get skill "name" /\
  caption_of (skill_card skill) = get skill "name".
Proof.
  unfold title_of, key_of, caption_of, skill_card, obj, get. simpl.
  split; [now rewrite lookup_insert_eq |]. split; [|reflexivity].
  rewrite !(lookup_insert_ne _ _ "key") by discriminate.
  now rewrite lookup_insert_eq.
Qed.

Lemma VStr_inj : Inj (=) (=) VStr.
Proof. intros s1 s2 H. now injection H. Qed.

(** X15. The grid has one card per entry of the table, in the table's order,
    and the title, the React key and the caption of a card are the name of
    its entry; when the names of the table are pairwise distinct, so are
    the keys of the cards. *)
Theorem Skills_cards (table : list (gmap string value)) :
  length (cards (Skills table)) = length table /\
  map title_of (cards (Skills table)) = names table /\
  map key_of (cards (Skills table)) = names table /\
  map caption_of (cards (Skills table)) = names table /\
  (NoDup (names table) -> NoDup (map key_of (cards (Skills table)))).
Proof.
  change (cards (Skills table)) with (map skill_card table).
  assert (K : map key_of (map skill_card table) = names table).
  { unfold names. rewrite map_map. apply map_ext. intros o.
    apply (skill_card_name o). }
  split; [apply length_map |]. split; [|split; [exact K | split]].
  - unfold names. rewrite map_map. apply map_ext. intros o.
    apply (skill_card_name o).
  - unfold names. rewrite map_map. apply map_ext. intros o.
    apply (skill_card_name o).
  - intros H. now rewrite K.
Qed.

Lemma Skills_cards_witness :
  NoDup (names Tables.skills) /\
  NoDup (names Tables.skills_earlier) /\
  NoDup (map key_of (cards (Skills Tables.skills))) /\
  NoDup (map key_of (cards (Skills Tables.skills_earlier))).
Proof.
  assert (N1 : NoDup (names Tables.skills)).
  { change (names Tables.skills) with
      (VStr <$> ["Python"; "Django"; "TypeScript"; "Node.js"; "Git";
                 "Docker"; "Linux"; "Nextjs"; "PostgreSQL"; "MongoDB";
                 "FastAPI"; "Celery"; "RabbitMQ"; "MinIO"; "LangChain";
                 "Tortoise ORM"]).
    pose proof VStr_inj as HI. apply (NoDup_fmap_2 VStr).
    apply (bool_decide_unpack _). vm_compute. exact I. }
  assert (N2 : NoDup (names Tables.skills_earlier)).
  { change (names Tables.skills_earlier) with
      (VStr <$> ["Python"; "Django"; "TypeScript"; "Node.js"; "GraphQL";
                 "Git"; "Docker"; "Linux"; "React"; "Nextjs"; "PostgreSQL";
                 "MongoDB"]).
    pose proof VStr_inj as HI. apply (NoDup_fmap_2 VStr).
    apply (bool_decide_unpack _). vm_compute. exact I. }
  split; [exact N1 |]. split; [exact N2 |]. split.
  - apply (Skills_cards Tables.skills). exact N1.
  - apply (Skills_cards Tables.skills_earlier). exact N2.
Defined.

End SkillsFacts.
